(** * errcode: hierarchical error codes, metadata inheritance and coded errors

    A shallow embedding of the Go package [errcode]: the code hierarchy, the
    metadata stores (the file that declares [MetaData]) and the coded-error
    wrappers (the file that declares [CodedError] and the built-in codes),
    together with the properties its specification states.

    Conventions of the embedding:
    - a Go interface value that may be [nil] is an [option]: [None] is [nil];
    - a Go [map] is a [gmap]; a function that writes to a map it received
      returns the updated map next to its result;
    - a [panic] is the [Panic] outcome of the [result] type;
    - a type assertion [v.(I)] is a pattern match on the dynamic type. *)

From Stdlib Require Import ZArith.
From stdpp Require Import base option list strings gmap.

Local Open Scope Z_scope.
Set Warnings "-register-all".

(** ** Codes *)

(** [type CodeStr string] *)
Abbreviation CodeStr := string (only parsing).

(** Modelled from the spec: the declaration of [Code] is missing from the
    sources; the metadata file reads [code.CodeStr()] and
    [code.Parent] (a pointer that is [nil] for a root), and the spec gives a
    code "its CodeStr" and "an optional ownership reference to a parent
    Code (nil for roots)". *)
Inductive Code : Type :=
  Build_Code { codeStr : CodeStr; Parent : option Code }.

(** Modelled from the spec: the method [CodeStr()] is missing from the
    sources; it reports the identifier of the code. *)
Definition Code_CodeStr (code : Code) : CodeStr := codeStr code.

(** Modelled from the spec: equality of two codes, as [IsAncestor] uses it
    ("[other] equals the receiver"): the same identifier and the same chain
    of parents. *)
Fixpoint Code_eqb (a b : Code) : bool :=
  match a, b with
  | Build_Code sa pa, Build_Code sb pb =>
      String.eqb sa sb &&
      match pa, pb with
      | None, None => true
      | Some x, Some y => Code_eqb x y
      | _, _ => false
      end
  end.

(** Modelled from the spec: [IsAncestor] is missing from the sources.
    "true if [other] is [code] itself or any ancestor of [code]"; "a simple
    upward walk". *)
Fixpoint IsAncestor (code ancestorCode : Code) : bool :=
  if Code_eqb code ancestorCode then true
  else match code with
       | Build_Code _ None => false
       | Build_Code _ (Some parent) => IsAncestor parent ancestorCode
       end.

(** The chain of a code: the code itself, then its parent, up to the root. *)
Fixpoint ancestry (code : Code) : list Code :=
  code :: match code with
          | Build_Code _ None => []
          | Build_Code _ (Some parent) => ancestry parent
          end.

(** ** Error values *)

(** [CodedError] and the struct types that embed it ([invalidInputErr],
    [notFoundErr], ...): they share its promoted methods and differ in their
    name only. *)
Inductive codedKind : Type :=
| asCodedError
| asInvalidInputErr
| asNotFoundErr
| asNotAuthenticatedErr
| asForbiddenErr.

(** [StackCode] and the struct types that embed it ([internalErr],
    [unimplementedErr]). *)
Inductive stackKind : Type :=
| asStackCode
| asInternalErr
| asUnimplementedErr.

(** The non-nil values of Go's [error] interface, by dynamic type.
    - [userError]: a type declared outside the package with an [Error()]
      method and no [Code()] method ([errors.New], [fmt.Errorf], a struct);
      [clientData] is [Some d] when the type also has [GetClientData()].
    - [ofErrorCode]: a value whose dynamic type satisfies [ErrorCode]; the
      assertion [err.(ErrorCode)] succeeds on exactly these.
    - [userErrorCode]: a type declared outside the package with [Error()]
      and [Code()].
    - [CodedError]: [struct { GetCode Code; Err error }].
    - [StackCode]: modelled from the spec (its declaration is missing from
      the sources): an [ErrorCode] together with a captured stack, of
      which the requested position is kept.
    - [any]: the values of [interface{}] that the package stores or
      returns. *)
Inductive error : Type :=
| userError (msg : string) (clientData : option any)
| ofErrorCode (errcode : errorCode)
with errorCode : Type :=
| userErrorCode (msg : string) (code : Code) (clientData : option any)
| ofCodedError (k : codedKind) (e : CodedError)
| ofStackCode (k : stackKind) (e : StackCode)
with CodedError : Type :=
| Build_CodedError (GetCode : Code) (Err : option error)
with StackCode : Type :=
| Build_StackCode (ErrorCode : errorCode) (GetStack : Z)
with any : Type :=
| anyNil
| anyInt (n : Z)
| anyGRPC (c : Z)
| anyString (s : string)
| anyError (e : error).

Definition GetCode (e : CodedError) : Code :=
  match e with Build_CodedError c _ => c end.
Definition Err (e : CodedError) : option error :=
  match e with Build_CodedError _ w => w end.
Definition ErrorCode (e : StackCode) : errorCode :=
  match e with Build_StackCode inner _ => inner end.
Definition GetStack (e : StackCode) : Z :=
  match e with Build_StackCode _ st => st end.

(** Conversion of an [error] interface value to [interface{}]. *)
Definition toAny (err : option error) : any :=
  match err with
  | None => anyNil
  | Some e => anyError e
  end.

(** [err.(ErrorCode)]: the value and [ok]. *)
Definition asErrorCode (err : option error) : option errorCode :=
  match err with
  | Some (ofErrorCode errcode) => Some errcode
  | _ => None
  end.

(** [existingCodeError] of the metadata file. *)
Record existingCodeError : Type := Build_existingCodeError {
  existingMetaData : any;
  code : Code
}.

(** ** Panics *)

(** The values the package hands to [panic], kept structured (the exact
    text produced by [fmt] for a [%v] verb is not part of the model). *)
Inductive panicValue : Type :=
| panicString (s : string)
| panicNilDereference
| panicTypeAssertion
| panicAnnotated (annotation : string) (cause : existingCodeError)
| panicNotInternal (defaultCode : Code)
| panicDuplicateCode (codeId : string).

Inductive result (A : Type) : Type :=
| Ok (a : A)
| Panic (p : panicValue).
Arguments Ok {A} a.
Arguments Panic {A} p.

Definition rbind {A B : Type} (r : result A) (k : A -> result B) : result B :=
  match r with
  | Ok a => k a
  | Panic p => Panic p
  end.

Definition returns {A : Type} (r : result A) : Prop := exists a, r = Ok a.
Definition panics {A : Type} (r : result A) : Prop := exists p, r = Panic p.

(** ** The code registry *)

(** Modelled from the spec: the registry is missing from the sources.
    "enforces global uniqueness of identifiers at creation time"; the
    registry is process-lifetime state. *)
Abbreviation Registry := (gset CodeStr) (only parsing).

(** Modelled from the spec: [NewCode] is missing from the sources.
    "creates a root code. Fails (panics/fatally errors) if [str] is already
    registered." *)
Definition NewCode (codeRep : CodeStr) (registry : Registry)
  : result (Code * Registry) :=
  if decide (codeRep ∈ registry) then Panic (panicDuplicateCode codeRep)
  else Ok (Build_Code codeRep None, {[codeRep]} ∪ registry).

(** Modelled from the spec: [Child] is missing from the sources.
    "creates a new code whose parent is the receiver, registers [str]. Same
    uniqueness rule." *)
Definition Child (code : Code) (childStr : CodeStr) (registry : Registry)
  : result (Code * Registry) :=
  if decide (childStr ∈ registry) then Panic (panicDuplicateCode childStr)
  else Ok (Build_Code childStr (Some code), {[childStr]} ∪ registry).

(** ** Metadata *)

(** [type MetaData map[CodeStr]interface{}]; the stores of the package are
    allocated with [make]. *)
Abbreviation MetaData := (gmap CodeStr any) (only parsing).

(** [func (code Code) MetaDataFromAncestors(metaData MetaData) interface{}] *)
Fixpoint MetaDataFromAncestors (code : Code) (metaData : MetaData) : any :=
  match metaData !! Code_CodeStr code with
  | Some existing => existing
  | None =>
      match code with
      | Build_Code _ None => anyNil
      | Build_Code _ (Some parent) => MetaDataFromAncestors parent metaData
      end
  end.

(** [func (code Code) SetMetaData(metaData MetaData, item interface{}) error]:
    the returned error ([None] is [nil]) and the map after the call. *)
Definition SetMetaData (code : Code) (metaData : MetaData) (item : any)
  : option existingCodeError * MetaData :=
  match metaData !! Code_CodeStr code with
  | Some existingCode =>
      (Some {| existingMetaData := existingCode; code := code |}, metaData)
  | None => (None, <[Code_CodeStr code := item]> metaData)
  end.

Section Formatting.

(** [fmt]'s rendering of a value under the verb [%v]. *)
Variable fmtCode : Code -> string.
Variable fmtAny : any -> string.

(** [func (e existingCodeError) Error() string] *)
Definition existingCodeError_Error (e : existingCodeError) : string :=
  "for code " +:+ fmtCode (code e) +:+ " metadata exists: "
    +:+ fmtAny (existingMetaData e).

End Formatting.

(** The constants of [net/http] that the package uses. *)
Definition StatusBadRequest : Z := 400.
Definition StatusUnauthorized : Z := 401.
Definition StatusForbidden : Z := 403.
Definition StatusNotFound : Z := 404.
Definition StatusConflict : Z := 409.
Definition StatusInternalServerError : Z := 500.
Definition StatusNotImplemented : Z := 501.

(** [func (code Code) SetHTTP(httpCode int) Code], on the store
    [httpMetaData]. *)
Definition SetHTTP (code : Code) (httpCode : Z) (httpMetaData : MetaData)
  : result (Code * MetaData) :=
  match SetMetaData code httpMetaData (anyInt httpCode) with
  | (Some err, _) => Panic (panicAnnotated "SetHTTP" err)
  | (None, httpMetaData') => Ok (code, httpMetaData')
  end.

(** [func (code Code) HTTPCode() int], on the store [httpMetaData]. *)
Definition HTTPCode (code : Code) (httpMetaData : MetaData) : result Z :=
  match MetaDataFromAncestors code httpMetaData with
  | anyNil => Ok StatusBadRequest
  | anyInt httpCode => Ok httpCode
  | _ => Panic panicTypeAssertion
  end.

(** ** Package state and initialisation *)

(** The process-wide state: the registry of identifiers and the store
    [var httpMetaData = make(MetaData)]. *)
Record Package : Type := Build_Package {
  registry : gset CodeStr;
  httpMetaData : gmap CodeStr any
}.

Definition emptyPackage : Package :=
  {| registry := ∅; httpMetaData := ∅ |}.

(** Initialisers run in sequence on the package state and may panic. *)
Definition Init (A : Type) : Type := Package -> result (A * Package).

#[global] Instance Init_ret : MRet Init := λ A a st, Ok (a, st).
#[global] Instance Init_bind : MBind Init := λ A B k m st,
  match m st with
  | Ok (a, st') => k a st'
  | Panic p => Panic p
  end.

Definition onRegistry (f : Registry -> result (Code * Registry)) : Init Code :=
  λ st, match f (registry st) with
        | Ok (c, r) => Ok (c, {| registry := r; httpMetaData := httpMetaData st |})
        | Panic p => Panic p
        end.

Definition onHTTP (f : MetaData -> result (Code * MetaData)) : Init Code :=
  λ st, match f (httpMetaData st) with
        | Ok (c, m) => Ok (c, {| registry := registry st; httpMetaData := m |})
        | Panic p => Panic p
        end.

Record CodeVars : Type := Build_CodeVars {
  varInternalCode : Code;
  varNotFoundCode : Code;
  varUnimplementedCode : Code;
  varStateCode : Code;
  varAlreadyExistsCode : Code;
  varOutOfRangeCode : Code;
  varInvalidInputCode : Code;
  varAuthCode : Code;
  varNotAuthenticatedCode : Code;
  varForbiddenCode : Code
}.

(** The [var ( ... )] block of the built-in codes, in declaration order
    (which is also a dependency order). *)
Definition initCodeVars : Init CodeVars :=
  internal ← onRegistry (NewCode "internal")
             ≫= (λ c, onHTTP (SetHTTP c StatusInternalServerError));
  notFound ← onRegistry (NewCode "missing")
             ≫= (λ c, onHTTP (SetHTTP c StatusNotFound));
  unimplemented ← onRegistry (Child internal "internal.unimplemented")
             ≫= (λ c, onHTTP (SetHTTP c StatusNotImplemented));
  state ← onRegistry (NewCode "state")
             ≫= (λ c, onHTTP (SetHTTP c StatusBadRequest));
  alreadyExists ← onRegistry (Child state "state.exists")
             ≫= (λ c, onHTTP (SetHTTP c StatusConflict));
  outOfRange ← onRegistry (Child state "state.range");
  invalidInput ← onRegistry (NewCode "input")
             ≫= (λ c, onHTTP (SetHTTP c StatusBadRequest));
  auth ← onRegistry (NewCode "auth");
  notAuthenticated ← onRegistry (Child auth "auth.unauthenticated")
             ≫= (λ c, onHTTP (SetHTTP c StatusUnauthorized));
  forbidden ← onRegistry (Child auth "auth.forbidden")
             ≫= (λ c, onHTTP (SetHTTP c StatusForbidden));
  mret {| varInternalCode := internal;
          varNotFoundCode := notFound;
          varUnimplementedCode := unimplemented;
          varStateCode := state;
          varAlreadyExistsCode := alreadyExists;
          varOutOfRangeCode := outOfRange;
          varInvalidInputCode := invalidInput;
          varAuthCode := auth;
          varNotAuthenticatedCode := notAuthenticated;
          varForbiddenCode := forbidden |}.

(** The values the block gives to the package's variables (see
    [initCodeVars_runs]). *)
Definition InternalCode : Code := Build_Code "internal" None.
Definition NotFoundCode : Code := Build_Code "missing" None.
Definition UnimplementedCode : Code :=
  Build_Code "internal.unimplemented" (Some InternalCode).
Definition StateCode : Code := Build_Code "state" None.
Definition AlreadyExistsCode : Code := Build_Code "state.exists" (Some StateCode).
Definition OutOfRangeCode : Code := Build_Code "state.range" (Some StateCode).
Definition InvalidInputCode : Code := Build_Code "input" None.
Definition AuthCode : Code := Build_Code "auth" None.
Definition NotAuthenticatedCode : Code :=
  Build_Code "auth.unauthenticated" (Some AuthCode).
Definition ForbiddenCode : Code := Build_Code "auth.forbidden" (Some AuthCode).

Definition codeVars : CodeVars :=
  {| varInternalCode := InternalCode;
     varNotFoundCode := NotFoundCode;
     varUnimplementedCode := UnimplementedCode;
     varStateCode := StateCode;
     varAlreadyExistsCode := AlreadyExistsCode;
     varOutOfRangeCode := OutOfRangeCode;
     varInvalidInputCode := InvalidInputCode;
     varAuthCode := AuthCode;
     varNotAuthenticatedCode := NotAuthenticatedCode;
     varForbiddenCode := ForbiddenCode |}.

(** The package state once the block has run. *)
Definition initialPackage : Package :=
  {| registry :=
       list_to_set ["internal"; "missing"; "internal.unimplemented"; "state";
                    "state.exists"; "state.range"; "input"; "auth";
                    "auth.unauthenticated"; "auth.forbidden"];
     httpMetaData :=
       list_to_map [("internal", anyInt 500); ("missing", anyInt 404);
                    ("internal.unimplemented", anyInt 501);
                    ("state", anyInt 400); ("state.exists", anyInt 409);
                    ("input", anyInt 400);
                    ("auth.unauthenticated", anyInt 401);
                    ("auth.forbidden", anyInt 403)] |}.


(** ** Methods of the error types *)

(** [func (e CodedError) Code() Code] *)
Definition CodedError_Code (e : CodedError) : Code := GetCode e.

(** [func (e CodedError) Cause() error] *)
Definition CodedError_Cause (e : CodedError) : option error := Err e.

(** The method [Code()] of an [ErrorCode] value, by dynamic type. The
    structs that embed [CodedError] inherit [CodedError.Code]; [StackCode]
    (modelled from the spec) reports the code of the [ErrorCode] it holds. *)
Fixpoint errorCode_Code (errcode : errorCode) : Code :=
  match errcode with
  | userErrorCode _ c _ => c
  | ofCodedError _ e => CodedError_Code e
  | ofStackCode _ (Build_StackCode inner _) => errorCode_Code inner
  end.

(** The method [Error()], by dynamic type; [CodedError_Error] is
    [func (e CodedError) Error() string], which calls a method on [e.Err]
    and so panics when that interface value is [nil]. *)
Fixpoint error_Error (err : error) : result string :=
  match err with
  | userError msg _ => Ok msg
  | ofErrorCode errcode => errorCode_Error errcode
  end
with errorCode_Error (errcode : errorCode) : result string :=
  match errcode with
  | userErrorCode msg _ _ => Ok msg
  | ofCodedError _ e => CodedError_Error e
  | ofStackCode _ (Build_StackCode inner _) => errorCode_Error inner
  end
with CodedError_Error (e : CodedError) : result string :=
  match e with
  | Build_CodedError _ None => Panic panicNilDereference
  | Build_CodedError _ (Some wrapped) => error_Error wrapped
  end.

(** A call [err.Error()] on a value of the interface [error]: a nil
    interface has no method to dispatch to. *)
Definition callError (err : option error) : result string :=
  match err with
  | None => Panic panicNilDereference
  | Some e => error_Error e
  end.

(** Modelled from the spec: [ClientData] is missing from the sources. "If
    [errCode] satisfies HasClientData, returns that; otherwise returns
    [errCode] itself"; the client data of a [StackCode] is that of the
    [ErrorCode] it holds. [CodedError_GetClientData], which it calls and
    which calls it, is the source's
    [func (e CodedError) GetClientData() interface{}]. *)
Fixpoint ClientData (errCode : errorCode) : any :=
  match errCode with
  | userErrorCode _ _ (Some data) => data
  | userErrorCode _ _ None => anyError (ofErrorCode errCode)
  | ofCodedError _ e => CodedError_GetClientData e
  | ofStackCode _ (Build_StackCode inner _) => ClientData inner
  end
with CodedError_GetClientData (e : CodedError) : any :=
  match e with
  | Build_CodedError _ wrapped =>
      match wrapped with
      | Some (ofErrorCode errCode) => ClientData errCode
      | _ => toAny wrapped
      end
  end.

(** ** Constructors *)

(** [func NewCodedError(err error, code Code) CodedError] *)
Definition NewCodedError (err : option error) (code : Code) : result CodedError :=
  match err with
  | None => Panic (panicString "NewCodedError error is nil")
  | Some _ =>
      let code := match asErrorCode err with
                  | Some errcode => errorCode_Code errcode
                  | None => code
                  end in
      Ok (Build_CodedError code err)
  end.

Definition embedCoded (k : codedKind) (r : result CodedError) : result errorCode :=
  rbind r (λ e, Ok (ofCodedError k e)).

(** [func NewInvalidInputErr(err error) ErrorCode] and its siblings. *)
Definition NewInvalidInputErr (err : option error) : result errorCode :=
  embedCoded asInvalidInputErr (NewCodedError err InvalidInputCode).
Definition NewNotFoundErr (err : option error) : result errorCode :=
  embedCoded asNotFoundErr (NewCodedError err NotFoundCode).
Definition NewNotAuthenticatedErr (err : option error) : result errorCode :=
  embedCoded asNotAuthenticatedErr (NewCodedError err NotAuthenticatedCode).
Definition NewForbiddenErr (err : option error) : result errorCode :=
  embedCoded asForbiddenErr (NewCodedError err ForbiddenCode).

(** Modelled from the spec: [NewStackCode] is missing from the sources;
    it is the "stack-trace-capturing construction" around an [ErrorCode]. *)
Definition NewStackCode (err : errorCode) (position : Z) : StackCode :=
  Build_StackCode err position.

(** [func makeInternalStackCode(defaultCode Code) func(error) StackCode]:
    the outer [result] is the check made when the closure is built, the
    inner one the call of the closure. *)
Definition makeInternalStackCode (defaultCode : Code)
  : result (option error -> result StackCode) :=
  if negb (IsAncestor defaultCode InternalCode)
  then Panic (panicNotInternal defaultCode)
  else Ok (λ err,
    match err with
    | None => Panic (panicString "makeInternalStackCode error is nil")
    | Some _ =>
        let code := match asErrorCode err with
                    | Some errcode =>
                        let errCode := errorCode_Code errcode in
                        if IsAncestor errCode InternalCode then errCode
                        else defaultCode
                    | None => defaultCode
                    end in
        Ok (NewStackCode (ofCodedError asCodedError (Build_CodedError code err)) 3)
    end).

(** [var internalStackCode = makeInternalStackCode(InternalCode)] *)
Definition internalStackCode : result (option error -> result StackCode) :=
  makeInternalStackCode InternalCode.

(** [var unimplementedStackCode = makeInternalStackCode(UnimplementedCode)] *)
Definition unimplementedStackCode : result (option error -> result StackCode) :=
  makeInternalStackCode UnimplementedCode.

(** [func NewInternalErr(err error) ErrorCode] *)
Definition NewInternalErr (err : option error) : result errorCode :=
  rbind internalStackCode (λ mk,
  rbind (mk err) (λ st, Ok (ofStackCode asInternalErr st))).

(** [func NewUnimplementedErr(err error) ErrorCode] *)
Definition NewUnimplementedErr (err : option error) : result errorCode :=
  rbind unimplementedStackCode (λ mk,
  rbind (mk err) (λ st, Ok (ofStackCode asUnimplementedErr st))).

(** ** Aggregation *)

(** Modelled from the spec: [Combine] and the aggregate type are missing
    from the sources. The aggregate "satisfies ErrorCode, reporting the
    code of its first constituent that has one", its [Errors()] exposes "the
    full ordered list of original errors", and "if none of the inputs
    satisfy ErrorCode, the aggregate falls back to a generic/internal
    classification". *)
Record MultiErrCode : Type := Build_MultiErrCode {
  primary : option errorCode;
  constituents : list error
}.

(** Modelled from the spec: the constituent that gives the aggregate its
    code, "first-in-argument-order wins". *)
Fixpoint firstErrorCode (errs : list error) : option errorCode :=
  match errs with
  | [] => None
  | ofErrorCode errcode :: _ => Some errcode
  | _ :: rest => firstErrorCode rest
  end.

(** Modelled from the spec: [Combine] (missing from the sources). *)
Definition Combine (errs : list error) : MultiErrCode :=
  {| primary := firstErrorCode errs; constituents := errs |}.

(** Modelled from the spec: [Code()] of the aggregate (missing from the
    sources), with the fallback to the internal classification. *)
Definition MultiErrCode_Code (e : MultiErrCode) : Code :=
  match primary e with
  | Some errcode => errorCode_Code errcode
  | None => InternalCode
  end.

(** Modelled from the spec: [Errors()] of the aggregate (missing from the
    sources). *)
Definition MultiErrCode_Errors (e : MultiErrCode) : list error := constituents e.

(** ** The GRPC registry *)

(** The constants of [google.golang.org/grpc/codes] that the package
    [grpc] uses, with their numbers. *)
Module codes.

Definition Unknown : Z := 2.
Definition InvalidArgument : Z := 3.
Definition NotFound : Z := 5.
Definition AlreadyExists : Z := 6.
Definition PermissionDenied : Z := 7.
Definition FailedPrecondition : Z := 9.
Definition Aborted : Z := 10.
Definition OutOfRange : Z := 11.
Definition Unimplemented : Z := 12.
Definition Internal : Z := 13.
Definition Unauthenticated : Z := 16.

End codes.

(** What [status.New(c, msg)] builds: a code and a message. *)
Module status.

Record Status : Type := New { Code : Z; Message : string }.

End status.

Module grpc.

(** [func SetCode(code errcode.Code, grpcCode codes.Code) errcode.Code], on
    the store [var grpcMetaData = make(errcode.MetaData)]. *)
Definition SetCode (code : Code) (grpcCode : Z) (grpcMetaData : MetaData)
  : result (Code * MetaData) :=
  match SetMetaData code grpcMetaData (anyGRPC grpcCode) with
  | (Some err, _) => Panic (panicAnnotated "SetGRPC" err)
  | (None, grpcMetaData') => Ok (code, grpcMetaData')
  end.

(** [func GetCode(code errcode.Code) codes.Code], on the store
    [grpcMetaData]. *)
Definition GetCode (code : Code) (grpcMetaData : MetaData) : result Z :=
  match MetaDataFromAncestors code grpcMetaData with
  | anyNil => Ok codes.Unknown
  | anyGRPC grpcCode => Ok grpcCode
  | _ => Panic panicTypeAssertion
  end.

(** [func Status(code errcode.ErrorCode) *status.Status]: the arguments of
    [status.New] are evaluated from left to right. *)
Definition Status (code : errorCode) (grpcMetaData : MetaData)
  : result status.Status :=
  rbind (GetCode (errorCode_Code code) grpcMetaData) (λ c,
  rbind (errorCode_Error code) (λ msg, Ok (status.New c msg))).

(** [func init()]: nine calls of [SetCode], one after the other. *)
Definition init (grpcMetaData : MetaData) : result MetaData :=
  rbind (SetCode InternalCode codes.Internal grpcMetaData) (λ r1,
  rbind (SetCode InvalidInputCode codes.InvalidArgument r1.2) (λ r2,
  rbind (SetCode NotFoundCode codes.NotFound r2.2) (λ r3,
  rbind (SetCode StateCode codes.FailedPrecondition r3.2) (λ r4,
  rbind (SetCode ForbiddenCode codes.PermissionDenied r4.2) (λ r5,
  rbind (SetCode NotAuthenticatedCode codes.Unauthenticated r5.2) (λ r6,
  rbind (SetCode AlreadyExistsCode codes.AlreadyExists r6.2) (λ r7,
  rbind (SetCode OutOfRangeCode codes.OutOfRange r7.2) (λ r8,
  rbind (SetCode UnimplementedCode codes.Unimplemented r8.2) (λ r9,
  Ok r9.2))))))))).

End grpc.

(** ** Vocabulary of the properties *)

(** "Satisfies ErrorCode": the assertion [err.(ErrorCode)] succeeds. *)
Definition satisfiesErrorCode (err : error) : Prop :=
  ∃ errcode, err = ofErrorCode errcode.

(** The promotion rule of the internal family, in the spec's words: the
    wrapped error's own code "is only honored as an override if it is itself
    a descendant of the internal family; otherwise the fixed default is
    used". *)
Definition promotedCode (defaultCode : Code) (err : error) : Code :=
  match err with
  | ofErrorCode errcode =>
      if IsAncestor (errorCode_Code errcode) InternalCode
      then errorCode_Code errcode
      else defaultCode
  | userError _ _ => defaultCode
  end.

(** The store has no value for the identifier of the code. *)
Definition unset (metaData : MetaData) (code : Code) : Prop :=
  metaData !! Code_CodeStr code = None.

(** A store written through [SetHTTP] alone holds integers only, and on
    such a store [HTTPCode] always returns. *)
Definition holdsInts (metaData : MetaData) : Prop :=
  ∀ k v, metaData !! k = Some v → ∃ n, v = anyInt n.

(** A sequence of code creations, as the initialisers of a process make
    them one after the other on the registry. *)
Inductive creation : Type :=
| createRoot (codeRep : CodeStr)
| createChild (parent : Code) (childStr : CodeStr).

Definition create (op : creation) (reg : Registry) : result (Code * Registry) :=
  match op with
  | createRoot codeRep => NewCode codeRep reg
  | createChild parent childStr => Child parent childStr reg
  end.

(** The identifier a creation asks for. *)
Definition creationId (op : creation) : CodeStr :=
  match op with
  | createRoot codeRep => codeRep
  | createChild _ childStr => childStr
  end.

Fixpoint createAll (ops : list creation) (reg : Registry)
  : result (list Code * Registry) :=
  match ops with
  | [] => Ok ([], reg)
  | op :: rest =>
      match create op reg with
      | Ok (c, reg') =>
          match createAll rest reg' with
          | Ok (cs, reg'') => Ok (c :: cs, reg'')
          | Panic p => Panic p
          end
      | Panic p => Panic p
      end
  end.

(** A sequence of [SetMetaData] calls on one store, the caller dropping the
    returned errors. *)
Fixpoint SetMetaData_all (calls : list (Code * any)) (metaData : MetaData)
  : MetaData :=
  match calls with
  | [] => metaData
  | (c, item) :: rest => SetMetaData_all rest (SetMetaData c metaData item).2
  end.

(** The value of the first call of a sequence made for an identifier. *)
Fixpoint firstFor (k : CodeStr) (calls : list (Code * any)) : option any :=
  match calls with
  | [] => None
  | (c, item) :: rest =>
      if decide (Code_CodeStr c = k) then Some item else firstFor k rest
  end.

Section Registrations.

(** A setter that panics on a conflict: [SetHTTP] or [grpc.SetCode]. *)
Variable set : Code → Z → MetaData → result (Code * MetaData).

(** A sequence of calls of the setter on one store, as initialisers make
    them: it stops at the first panic. *)
Fixpoint setEach (calls : list (Code * Z)) (metaData : MetaData)
  : result MetaData :=
  match calls with
  | [] => Ok metaData
  | (c, n) :: rest =>
      match set c n metaData with
      | Ok (_, metaData') => setEach rest metaData'
      | Panic p => Panic p
      end
  end.

End Registrations.

(** The identifiers a sequence of calls registers. *)
Definition callIds {A : Type} (calls : list (Code * A)) : list CodeStr :=
  (λ call, Code_CodeStr call.1) <$> calls.

(** The table of [grpc.init], call by call. *)
Definition grpcTable : list (Code * Z) :=
  [(InternalCode, codes.Internal);
   (InvalidInputCode, codes.InvalidArgument);
   (NotFoundCode, codes.NotFound);
   (StateCode, codes.FailedPrecondition);
   (ForbiddenCode, codes.PermissionDenied);
   (NotAuthenticatedCode, codes.Unauthenticated);
   (AlreadyExistsCode, codes.AlreadyExists);
   (OutOfRangeCode, codes.OutOfRange);
   (UnimplementedCode, codes.Unimplemented)].

(** The identifiers along the chain of a code. *)
Definition chainIds (code : Code) : list CodeStr :=
  Code_CodeStr <$> ancestry code.

(** The GRPC store once [grpc.init] has run on the empty store (see
    [grpc_init_empty]). *)
Definition grpcInitial : MetaData :=
  list_to_map ((λ call : Code * Z, (Code_CodeStr call.1, anyGRPC call.2)) <$> grpcTable).

(** * Properties *)

(** ** Initialisation *)

(** Running the [var] block on the empty package state gives the codes and
    the state defined above; no initialiser panics. *)
Lemma initCodeVars_runs : initCodeVars emptyPackage = Ok (codeVars, initialPackage).
Proof. vm_compute. reflexivity. Qed.

(** ** The code hierarchy *)

(** Induction along the parent link. *)
Lemma Code_parent_ind (P : Code -> Prop)
  (Hroot : ∀ s, P (Build_Code s None))
  (Hchild : ∀ s parent, P parent → P (Build_Code s (Some parent))) :
  ∀ code, P code.
Proof.
  fix IH 1. intros [s [parent|]].
  - apply Hchild, IH.
  - apply Hroot.
Qed.

Lemma Code_eqb_eq (a b : Code) : Code_eqb a b = true ↔ a = b.
Proof.
  revert b. induction a as [sa|sa pa IH] using Code_parent_ind;
    intros [sb [pb|]]; simpl;
    rewrite andb_true_iff, String.eqb_eq.
  - split; [intros [_ ?]; discriminate | intros ?; simplify_eq].
  - split; [intros [-> _]; reflexivity | intros ?; simplify_eq; done].
  - rewrite IH. split; [intros [-> ->]; reflexivity | intros ?; simplify_eq; done].
  - split; [intros [_ ?]; discriminate | intros ?; simplify_eq].
Qed.

Lemma Code_eqb_refl (a : Code) : Code_eqb a a = true.
Proof. by apply Code_eqb_eq. Qed.

Lemma IsAncestor_refl (code : Code) : IsAncestor code code = true.
Proof. destruct code; cbn [IsAncestor]. by rewrite Code_eqb_refl. Qed.

(** [IsAncestor] decides membership in the chain of the receiver. *)
Lemma IsAncestor_ancestry (code ancestorCode : Code) :
  IsAncestor code ancestorCode = true ↔ ancestorCode ∈ ancestry code.
Proof.
  induction code as [s|s parent IH] using Code_parent_ind.
  - cbn [IsAncestor ancestry].
    destruct (Code_eqb _ _) eqn:E.
    + apply Code_eqb_eq in E as <-. split; [intros _; apply list_elem_of_here | done].
    + split; [done|]. intros [->|H]%elem_of_cons.
      * by rewrite Code_eqb_refl in E.
      * by apply elem_of_nil in H.
  - cbn [IsAncestor ancestry].
    destruct (Code_eqb _ _) eqn:E.
    + apply Code_eqb_eq in E as <-. split; [intros _; apply list_elem_of_here | done].
    + rewrite IH. split; [apply list_elem_of_further|].
      intros [->|H]%elem_of_cons; [|done].
      by rewrite Code_eqb_refl in E.
Qed.

Lemma IsAncestor_child (parent ancestorCode : Code) (s : CodeStr) :
  IsAncestor parent ancestorCode = true →
  IsAncestor (Build_Code s (Some parent)) ancestorCode = true.
Proof.
  rewrite !IsAncestor_ancestry. cbn [ancestry]. apply list_elem_of_further.
Qed.

(** ** Coded errors *)

Lemma asErrorCode_Some (err : error) (errcode : errorCode) :
  asErrorCode (Some err) = Some errcode ↔ err = ofErrorCode errcode.
Proof. destruct err; simpl; split; intros; simplify_eq; done. Qed.

Lemma asErrorCode_None (err : error) :
  asErrorCode (Some err) = None ↔ ¬ satisfiesErrorCode err.
Proof.
  destruct err as [msg d|errcode]; simpl; split; try done.
  - intros _ [errcode ?]. discriminate.
  - intros H. destruct H. by exists errcode.
Qed.

Lemma makeInternalStackCode_call (defaultCode : Code) (err : error) :
  IsAncestor defaultCode InternalCode = true →
  rbind (makeInternalStackCode defaultCode) (λ mk, mk (Some err)) =
  Ok (NewStackCode
        (ofCodedError asCodedError
           (Build_CodedError (promotedCode defaultCode err) (Some err))) 3).
Proof.
  intros Hfam. unfold makeInternalStackCode. rewrite Hfam. simpl.
  by destruct err.
Qed.

Lemma makeInternalStackCode_nil (defaultCode : Code) :
  IsAncestor defaultCode InternalCode = true →
  rbind (makeInternalStackCode defaultCode) (λ mk, mk None) =
  Panic (panicString "makeInternalStackCode error is nil").
Proof. intros Hfam. unfold makeInternalStackCode. by rewrite Hfam. Qed.

Lemma UnimplementedCode_internal : IsAncestor UnimplementedCode InternalCode = true.
Proof. reflexivity. Qed.

Lemma rbind_assoc {A B C : Type} (r : result A) (f : A → result B) (g : B → result C) :
  rbind (rbind r f) g = rbind r (λ a, rbind (f a) g).
Proof. by destruct r. Qed.

Lemma NewInternalErr_Some (err : error) :
  NewInternalErr (Some err) =
  Ok (ofStackCode asInternalErr
        (NewStackCode
           (ofCodedError asCodedError
              (Build_CodedError (promotedCode InternalCode err) (Some err))) 3)).
Proof.
  unfold NewInternalErr, internalStackCode.
  rewrite <- (rbind_assoc _ (λ mk, mk (Some err))).
  by rewrite makeInternalStackCode_call by apply IsAncestor_refl.
Qed.

Lemma NewUnimplementedErr_Some (err : error) :
  NewUnimplementedErr (Some err) =
  Ok (ofStackCode asUnimplementedErr
        (NewStackCode
           (ofCodedError asCodedError
              (Build_CodedError (promotedCode UnimplementedCode err) (Some err))) 3)).
Proof.
  unfold NewUnimplementedErr, unimplementedStackCode.
  rewrite <- (rbind_assoc _ (λ mk, mk (Some err))).
  by rewrite makeInternalStackCode_call by apply UnimplementedCode_internal.
Qed.

Lemma promotedCode_internal (defaultCode : Code) (err : error) :
  IsAncestor defaultCode InternalCode = true →
  IsAncestor (promotedCode defaultCode err) InternalCode = true.
Proof.
  intros Hfam. destruct err as [msg d|errcode]; simpl; [done|].
  by destruct (IsAncestor (errorCode_Code errcode) InternalCode) eqn:E.
Qed.

(** C1. For a non-nil [err] and a code [D], [NewCodedError(err, D)] returns
    a [CodedError] that stores [err] itself as the wrapped error; its
    [Code()] is [err]'s own code when [err] satisfies [ErrorCode], and [D]
    when it does not. *)
Theorem NewCodedError_code (err : error) (D : Code) :
  ∃ e, NewCodedError (Some err) D = Ok e
    ∧ Err e = Some err
    ∧ (∀ errcode, err = ofErrorCode errcode →
         CodedError_Code e = errorCode_Code errcode)
    ∧ (¬ satisfiesErrorCode err → CodedError_Code e = D).
Proof.
  eexists. split; [reflexivity|]. split; [reflexivity|]. split.
  - intros errcode ->. reflexivity.
  - intros Hno%asErrorCode_None. simpl in *. by rewrite Hno.
Qed.

Lemma NewCodedError_code_witness :
  (∃ e, NewCodedError (Some (ofErrorCode (userErrorCode "no such row" NotFoundCode None)))
                      InvalidInputCode = Ok e
        ∧ CodedError_Code e = NotFoundCode)
  ∧ (∃ e, NewCodedError (Some (userError "bad field" None)) InvalidInputCode = Ok e
          ∧ CodedError_Code e = InvalidInputCode).
Proof.
  split.
  - destruct (NewCodedError_code
                (ofErrorCode (userErrorCode "no such row" NotFoundCode None))
                InvalidInputCode) as (e & He & _ & Hown & _).
    exists e. split; [exact He | exact (Hown _ eq_refl)].
  - destruct (NewCodedError_code (userError "bad field" None) InvalidInputCode)
      as (e & He & _ & _ & Hdefault).
    exists e. split; [exact He|]. apply Hdefault.
    intros [errcode Herr]. discriminate Herr.
Defined.

(** C2. For a non-nil [err], [NewInternalErr(err)] and
    [NewUnimplementedErr(err)] return an error whose [Code()] is [err]'s own
    code when [err] satisfies [ErrorCode] with a code of the internal family
    ([IsAncestor(InternalCode)] holds of it); in every other case the code
    is the fixed default, [InternalCode] and [UnimplementedCode]
    respectively. *)
Theorem NewInternalErr_promotion (err : error) :
  ∃ r u, NewInternalErr (Some err) = Ok r
    ∧ NewUnimplementedErr (Some err) = Ok u
    ∧ (∀ errcode, err = ofErrorCode errcode →
         IsAncestor (errorCode_Code errcode) InternalCode = true →
         errorCode_Code r = errorCode_Code errcode
         ∧ errorCode_Code u = errorCode_Code errcode)
    ∧ ((∀ errcode, err = ofErrorCode errcode →
          IsAncestor (errorCode_Code errcode) InternalCode = false) →
         errorCode_Code r = InternalCode
         ∧ errorCode_Code u = UnimplementedCode).
Proof.
  eexists _, _.
  split; [apply NewInternalErr_Some|]. split; [apply NewUnimplementedErr_Some|].
  cbn [errorCode_Code NewStackCode CodedError_Code GetCode]. split.
  - intros errcode -> Hfam. simpl. by rewrite Hfam.
  - intros Hout. destruct err as [msg d|errcode]; simpl; [done|].
    by rewrite (Hout errcode eq_refl).
Qed.

Lemma NewInternalErr_promotion_witness :
  (∃ r, NewInternalErr (Some (ofErrorCode (userErrorCode "todo" UnimplementedCode None))) = Ok r
        ∧ errorCode_Code r = UnimplementedCode)
  ∧ (∃ r u,
       NewInternalErr (Some (ofErrorCode (userErrorCode "no such row" NotFoundCode None))) = Ok r
       ∧ NewUnimplementedErr (Some (ofErrorCode (userErrorCode "no such row" NotFoundCode None))) = Ok u
       ∧ errorCode_Code r = InternalCode
       ∧ errorCode_Code u = UnimplementedCode).
Proof.
  split.
  - destruct (NewInternalErr_promotion
                (ofErrorCode (userErrorCode "todo" UnimplementedCode None)))
      as (r & u & Hr & _ & Hown & _).
    exists r. split; [exact Hr|]. exact (proj1 (Hown _ eq_refl eq_refl)).
  - destruct (NewInternalErr_promotion
                (ofErrorCode (userErrorCode "no such row" NotFoundCode None)))
      as (r & u & Hr & Hu & _ & Hdefault).
    exists r, u. split; [exact Hr|]. split; [exact Hu|]. apply Hdefault.
    intros errcode Herr. injection Herr as <-. reflexivity.
Defined.

(** A not-found error handed to [NewInternalErr] comes out as plain
    internal, and an unimplemented one keeps its code. *)
Example NewInternalErr_of_not_found :
  rbind (NewNotFoundErr (Some (userError "no such row" None)))
        (λ nf, rbind (NewInternalErr (Some (ofErrorCode nf)))
                     (λ r, Ok (errorCode_Code nf, errorCode_Code r)))
  = Ok (NotFoundCode, InternalCode).
Proof. reflexivity. Qed.

Example NewInternalErr_of_unimplemented :
  rbind (NewUnimplementedErr (Some (userError "todo" None)))
        (λ un, rbind (NewInternalErr (Some (ofErrorCode un)))
                     (λ r, Ok (errorCode_Code r)))
  = Ok UnimplementedCode.
Proof. reflexivity. Qed.

(** C7. [e.GetClientData()] of a [CodedError] is the client data of the
    wrapped error, computed through [ClientData], whenever the wrapped error
    satisfies [ErrorCode], and the wrapped error value itself otherwise; the
    computation descends through nested [CodedError]s, since [ClientData]
    of a [CodedError] is its [GetClientData()] again. *)
Theorem CodedError_GetClientData_wrapped (e : CodedError) :
  (∀ errCode, Err e = Some (ofErrorCode errCode) →
     CodedError_GetClientData e = ClientData errCode)
  ∧ (asErrorCode (Err e) = None → CodedError_GetClientData e = toAny (Err e))
  ∧ (∀ k, ClientData (ofCodedError k e) = CodedError_GetClientData e).
Proof.
  destruct e as [c wrapped]. simpl. split; [|split].
  - by intros errCode ->.
  - by destruct wrapped as [[msg d|errcode]|].
  - done.
Qed.

Lemma CodedError_GetClientData_wrapped_witness :
  CodedError_GetClientData
    (Build_CodedError NotFoundCode
       (Some (ofErrorCode (userErrorCode "no such row" NotFoundCode (Some (anyInt 7))))))
  = anyInt 7
  ∧ CodedError_GetClientData (Build_CodedError NotFoundCode (Some (userError "boom" None)))
    = anyError (userError "boom" None).
Proof.
  split.
  - exact (proj1 (CodedError_GetClientData_wrapped
                    (Build_CodedError NotFoundCode
                       (Some (ofErrorCode
                                (userErrorCode "no such row" NotFoundCode (Some (anyInt 7)))))))
                 _ eq_refl).
  - exact (proj1 (proj2 (CodedError_GetClientData_wrapped
                           (Build_CodedError NotFoundCode (Some (userError "boom" None)))))
                 eq_refl).
Defined.

(** Two layers of [CodedError] around a struct error that carries a code
    and its own client data: the data of the innermost error comes out. *)
Example GetClientData_descends :
  let blocked := userErrorCode "path blocked" (Build_Code "state.blocked" (Some StateCode))
                   (Some (anyString "{1 5 3}")) in
  rbind (NewCodedError (Some (ofErrorCode blocked)) StateCode) (λ inner,
  rbind (NewCodedError (Some (ofErrorCode (ofCodedError asCodedError inner))) InternalCode)
        (λ outer, Ok (CodedError_GetClientData outer)))
  = Ok (anyString "{1 5 3}").
Proof. reflexivity. Qed.

(** A plain wrapped error is its own client data. *)
Example GetClientData_plain :
  rbind (NewCodedError (Some (userError "boom" None)) InternalCode)
        (λ e, Ok (CodedError_GetClientData e))
  = Ok (anyError (userError "boom" None)).
Proof. reflexivity. Qed.

(** C8. For every [CodedError] [e], [e.Error()] is exactly the call
    [e.Err.Error()] on the wrapped error, so its result is the wrapped
    error's message, unaltered, and [e.Cause()] is exactly the wrapped error
    value [e.Err]. *)
Theorem CodedError_transparent (e : CodedError) :
  CodedError_Error e = callError (Err e)
  ∧ CodedError_Cause e = Err e
  ∧ (∀ wrapped, Err e = Some wrapped →
       CodedError_Error e = error_Error wrapped
       ∧ CodedError_Cause e = Some wrapped
       ∧ ∀ k, errorCode_Error (ofCodedError k e) = error_Error wrapped)
  ∧ (∀ msg data, Err e = Some (userError msg data) → CodedError_Error e = Ok msg).
Proof.
  destruct e as [c w]. simpl. split; [by destruct w|]. split; [done|]. split.
  - by intros wrapped ->.
  - by intros msg data ->.
Qed.

Lemma CodedError_transparent_witness :
  CodedError_Error (Build_CodedError NotFoundCode (Some (userError "no such row" None)))
    = Ok "no such row"
  ∧ CodedError_Cause (Build_CodedError NotFoundCode (Some (userError "no such row" None)))
    = Some (userError "no such row" None).
Proof.
  destruct (CodedError_transparent
              (Build_CodedError NotFoundCode (Some (userError "no such row" None))))
    as (_ & Hcause & _ & Hmsg).
  split; [exact (Hmsg _ _ eq_refl) | exact Hcause].
Defined.

(** The message passes unaltered through any number of wrappers. *)
Example Error_through_wrappers :
  rbind (NewNotFoundErr (Some (userError "no such row" None))) (λ nf,
  rbind (NewInternalErr (Some (ofErrorCode nf))) (λ r, errorCode_Error r))
  = Ok "no such row".
Proof. reflexivity. Qed.

(** [Error()] on a [CodedError] literal without a wrapped error is a call
    on a nil interface. *)
Lemma CodedError_Error_nil (c : Code) :
  CodedError_Error (Build_CodedError c None) = Panic panicNilDereference.
Proof. reflexivity. Qed.

(** Every [CodedError] that [NewCodedError] returns holds a wrapped error. *)
Lemma NewCodedError_wraps (err : option error) (c : Code) (e : CodedError) :
  NewCodedError err c = Ok e → ∃ wrapped, Err e = Some wrapped ∧ err = Some wrapped.
Proof. destruct err as [w|]; simpl; [|done]. intros [= <-]. by exists w. Qed.

(** C9. The constructors panic on a nil error: [NewCodedError(nil, c)] for
    every code [c], [NewInternalErr(nil)] and [NewUnimplementedErr(nil)];
    on a non-nil error each of them returns, so the panic branch is not
    reached. *)
Theorem nil_error_panics :
  (∀ c, NewCodedError None c = Panic (panicString "NewCodedError error is nil"))
  ∧ NewInternalErr None = Panic (panicString "makeInternalStackCode error is nil")
  ∧ NewUnimplementedErr None = Panic (panicString "makeInternalStackCode error is nil")
  ∧ (∀ err c, returns (NewCodedError (Some err) c))
  ∧ (∀ err, returns (NewInternalErr (Some err)))
  ∧ (∀ err, returns (NewUnimplementedErr (Some err))).
Proof.
  repeat split; try reflexivity.
  - intros err c. by eexists.
  - intros err. rewrite NewInternalErr_Some. by eexists.
  - intros err. rewrite NewUnimplementedErr_Some. by eexists.
Qed.

(** The thin constructors inherit the nil check of [NewCodedError]. *)
Lemma thin_constructors_nil :
  NewInvalidInputErr None = Panic (panicString "NewCodedError error is nil")
  ∧ NewNotFoundErr None = Panic (panicString "NewCodedError error is nil")
  ∧ NewNotAuthenticatedErr None = Panic (panicString "NewCodedError error is nil")
  ∧ NewForbiddenErr None = Panic (panicString "NewCodedError error is nil").
Proof. repeat split. Qed.

(** C10. Every error that [NewInternalErr] or [NewUnimplementedErr] returns
    has a [Code()] in the internal family: [InternalCode] is that code or
    one of its ancestors. The two defaults are in the family
    ([UnimplementedCode] is a child of [InternalCode]), a closure built by
    [makeInternalStackCode] only returns codes of the family, and
    [makeInternalStackCode] panics when its default is outside the family. *)
Theorem internal_family_invariant :
  (∀ err r, NewInternalErr err = Ok r ∨ NewUnimplementedErr err = Ok r →
     IsAncestor (errorCode_Code r) InternalCode = true
     ∧ InternalCode ∈ ancestry (errorCode_Code r))
  ∧ IsAncestor InternalCode InternalCode = true
  ∧ Parent UnimplementedCode = Some InternalCode
  ∧ (∀ defaultCode mk err st,
       makeInternalStackCode defaultCode = Ok mk → mk err = Ok st →
       IsAncestor (errorCode_Code (ErrorCode st)) InternalCode = true)
  ∧ (∀ defaultCode, IsAncestor defaultCode InternalCode = false →
       makeInternalStackCode defaultCode = Panic (panicNotInternal defaultCode)).
Proof.
  split; [|split; [reflexivity|split; [reflexivity|split]]].
  - intros [err|] r.
    + rewrite NewInternalErr_Some, NewUnimplementedErr_Some.
      rewrite <- IsAncestor_ancestry.
      intros [[= <-]|[= <-]]; cbn [errorCode_Code NewStackCode CodedError_Code GetCode];
        (split; apply promotedCode_internal; reflexivity).
    + intros [H|H]; discriminate H.
  - intros defaultCode mk err st. unfold makeInternalStackCode.
    destruct (IsAncestor defaultCode InternalCode) eqn:Hfam; [|done].
    simpl. intros [= <-]. destruct err as [err|]; [|done].
    intros [= <-]. cbn [ErrorCode NewStackCode errorCode_Code CodedError_Code GetCode].
    pose proof (promotedCode_internal defaultCode err Hfam) as Hp.
    by destruct err.
  - intros defaultCode Hout. unfold makeInternalStackCode. by rewrite Hout.
Qed.

Lemma internal_family_invariant_witness :
  IsAncestor
    (errorCode_Code
       (ofStackCode asUnimplementedErr
          (NewStackCode
             (ofCodedError asCodedError
                (Build_CodedError UnimplementedCode (Some (userError "todo" None)))) 3)))
    InternalCode = true.
Proof.
  refine (proj1 (proj1 internal_family_invariant (Some (userError "todo" None)) _ _)).
  right. reflexivity.
Defined.

(** ** Metadata inheritance *)

Lemma ancestry_head (code : Code) : ∃ rest, ancestry code = code :: rest.
Proof. destruct code as [s [p|]]; simpl; eauto. Qed.

Section Inheritance.

(** One store, of any kind of metadata. *)
Variable metaData : gmap CodeStr any.

(** The value found is that of the first code of the chain that has one. *)
Lemma MetaDataFromAncestors_nearest (code : Code)
    (pre post : list Code) (A : Code) (v : any) :
  ancestry code = pre ++ A :: post →
  Forall (unset metaData) pre →
  metaData !! Code_CodeStr A = Some v →
  MetaDataFromAncestors code metaData = v.
Proof.
  revert pre. induction code as [s|s parent IH] using Code_parent_ind;
    intros pre Hchain Hpre HA.
  - destruct pre as [|c pre]; simpl in Hchain; simplify_eq.
    + simpl in *. by rewrite HA.
    + by destruct pre.
  - destruct pre as [|c pre]; simpl in Hchain; simplify_eq.
    + simpl in *. by rewrite HA.
    + apply Forall_cons in Hpre as [Hc Hpre]. unfold unset in Hc.
      cbn [MetaDataFromAncestors]. rewrite Hc. by apply (IH pre).
Qed.

Lemma MetaDataFromAncestors_absent (code : Code) :
  Forall (unset metaData) (ancestry code) →
  MetaDataFromAncestors code metaData = anyNil.
Proof.
  induction code as [s|s parent IH] using Code_parent_ind;
    cbn [ancestry]; intros [Hc Hrest]%Forall_cons; unfold unset in Hc;
    cbn [MetaDataFromAncestors]; rewrite Hc; [done | by apply IH].
Qed.

(** The lookup as one expression over the chain. *)
Lemma MetaDataFromAncestors_chain (code : Code) :
  MetaDataFromAncestors code metaData =
  default anyNil (head (omap (λ c, metaData !! Code_CodeStr c) (ancestry code))).
Proof.
  induction code as [s|s parent IH] using Code_parent_ind;
    cbn [ancestry MetaDataFromAncestors omap list_omap];
    destruct (metaData !! Code_CodeStr _) eqn:E; try done.
Qed.

Lemma MetaDataFromAncestors_inherit (s : CodeStr) (parent : Code) :
  metaData !! s = None →
  MetaDataFromAncestors (Build_Code s (Some parent)) metaData =
  MetaDataFromAncestors parent metaData.
Proof. intros H. cbn [MetaDataFromAncestors Code_CodeStr codeStr]. by rewrite H. Qed.

End Inheritance.

Lemma holdsInts_empty : holdsInts ∅.
Proof. intros k v. by rewrite lookup_empty. Qed.

Lemma SetHTTP_holdsInts (code code' : Code) (httpCode : Z) (m m' : MetaData) :
  holdsInts m → SetHTTP code httpCode m = Ok (code', m') → holdsInts m'.
Proof.
  intros Hm. unfold SetHTTP, SetMetaData.
  destruct (m !! Code_CodeStr code) eqn:E; [done|].
  intros [= <- <-] k v. rewrite lookup_insert.
  case_decide; [intros [= <-]; eauto | apply Hm].
Qed.

Lemma HTTPCode_returns (code : Code) (m : MetaData) :
  holdsInts m → returns (HTTPCode code m).
Proof.
  intros Hm. unfold HTTPCode.
  induction code as [s|s parent IH] using Code_parent_ind;
    cbn [MetaDataFromAncestors];
    destruct (m !! Code_CodeStr _) as [v|] eqn:E; try (by eexists); try done;
    destruct (Hm _ _ E) as [n ->]; by eexists.
Qed.

Lemma holdsInts_list_to_map (l : list (string * any)) :
  Forall (λ kv, ∃ n, kv.2 = anyInt n) l → holdsInts (list_to_map l).
Proof.
  intros Hl k v Hk%elem_of_list_to_map_2.
  rewrite Forall_forall in Hl. exact (Hl (k, v) Hk).
Qed.

Lemma initialPackage_holdsInts : holdsInts (httpMetaData initialPackage).
Proof. apply holdsInts_list_to_map. repeat constructor; by eexists. Qed.

(** On the store the package starts with, [HTTPCode] returns for every
    code. *)
Lemma HTTPCode_total (code : Code) :
  returns (HTTPCode code (httpMetaData initialPackage)).
Proof. apply HTTPCode_returns, initialPackage_holdsInts. Qed.

(** C3. [C.HTTPCode()] is the HTTP value registered for the first code of
    [C]'s chain ([C] itself, then its parent, and so on) that has one, and
    400 when no code of the chain has one; so a child made by [Child] that
    has no HTTP metadata of its own has the [HTTPCode()] of its parent. *)
Theorem HTTPCode_inherited :
  (∀ (m : MetaData) code n,
     m !! Code_CodeStr code = Some (anyInt n) → HTTPCode code m = Ok n)
  ∧ (∀ (m : MetaData) code pre A post n,
       ancestry code = pre ++ A :: post →
       Forall (unset m) pre →
       m !! Code_CodeStr A = Some (anyInt n) →
       HTTPCode code m = Ok n)
  ∧ (∀ (m : MetaData) code,
       Forall (unset m) (ancestry code) → HTTPCode code m = Ok 400)
  ∧ (∀ (m : MetaData) C1 s (reg reg' : Registry) C2,
       Child C1 s reg = Ok (C2, reg') →
       m !! Code_CodeStr C2 = None →
       HTTPCode C2 m = HTTPCode C1 m).
Proof.
  repeat split.
  - intros m code n H. unfold HTTPCode.
    destruct code as [s [p|]]; cbn [MetaDataFromAncestors]; by rewrite H.
  - intros m code pre A post n Hchain Hpre HA. unfold HTTPCode.
    by rewrite (MetaDataFromAncestors_nearest m code pre post A (anyInt n)).
  - intros m code Hnone. unfold HTTPCode.
    by rewrite MetaDataFromAncestors_absent.
  - intros m C1 s reg reg' C2. unfold Child.
    case_decide; [done|]. intros [= <- <-] Hnone. unfold HTTPCode.
    by rewrite MetaDataFromAncestors_inherit.
Qed.

Lemma HTTPCode_inherited_witness :
  HTTPCode OutOfRangeCode (httpMetaData initialPackage) = Ok 400.
Proof.
  apply (proj1 (proj2 HTTPCode_inherited)
           (httpMetaData initialPackage) OutOfRangeCode [OutOfRangeCode] StateCode [] 400).
  - reflexivity.
  - apply Forall_cons. split; [|apply Forall_nil; exact I]. vm_compute. reflexivity.
  - vm_compute. reflexivity.
Defined.

(** The package's own codes: [state.range] has no HTTP value and inherits
    400 from [state]; [internal.unimplemented] has its own; [auth] has none
    and no parent. *)
Example HTTPCode_of_package_codes :
  HTTPCode OutOfRangeCode (httpMetaData initialPackage) = Ok 400
  ∧ HTTPCode UnimplementedCode (httpMetaData initialPackage) = Ok 501
  ∧ HTTPCode AlreadyExistsCode (httpMetaData initialPackage) = Ok 409
  ∧ HTTPCode AuthCode (httpMetaData initialPackage) = Ok 400.
Proof. vm_compute. done. Qed.

(** ** Metadata registration *)

(** C4. If the store already has a value for the code's identifier,
    [SetMetaData] returns a conflict error that carries the stored value
    (its message ends with that value's rendering) and the store is left as
    it was; if there is none, it returns nil and the store now holds the new
    value under the identifier, every other entry being untouched. *)
Theorem SetMetaData_conflict (c : Code) (m : MetaData) (v : any) :
  (∀ old, m !! Code_CodeStr c = Some old →
     ∃ e, SetMetaData c m v = (Some e, m)
       ∧ existingMetaData e = old
       ∧ code e = c
       ∧ ∀ fmtCode fmtAny,
           existingCodeError_Error fmtCode fmtAny e =
           "for code " +:+ fmtCode c +:+ " metadata exists: " +:+ fmtAny old)
  ∧ (m !! Code_CodeStr c = None →
     ∃ m', SetMetaData c m v = (None, m')
       ∧ m' !! Code_CodeStr c = Some v
       ∧ ∀ k, k ≠ Code_CodeStr c → m' !! k = m !! k).
Proof.
  unfold SetMetaData. split.
  - intros old ->. eexists. repeat split.
  - intros ->. eexists. split; [reflexivity|]. split.
    + apply lookup_insert_eq.
    + intros k Hk. by apply lookup_insert_ne.
Qed.

Lemma SetMetaData_conflict_witness :
  (∃ e, SetMetaData InternalCode (httpMetaData initialPackage) (anyInt 503)
        = (Some e, httpMetaData initialPackage)
        ∧ existingMetaData e = anyInt 500)
  ∧ (∃ m', SetMetaData AuthCode (httpMetaData initialPackage) (anyInt 401) = (None, m')
           ∧ m' !! "auth" = Some (anyInt 401)).
Proof.
  split.
  - destruct (proj1 (SetMetaData_conflict InternalCode (httpMetaData initialPackage) (anyInt 503))
                (anyInt 500)) as (e & He & Hold & _).
    + vm_compute. reflexivity.
    + exists e. split; [exact He | exact Hold].
  - destruct (proj2 (SetMetaData_conflict AuthCode (httpMetaData initialPackage) (anyInt 401)))
      as (m' & Hm' & Hv & _).
    + vm_compute. reflexivity.
    + exists m'. split; [exact Hm' | exact Hv].
Defined.

(** Setting the HTTP value of [internal] a second time: the conflict names
    500 and the store is unchanged. *)
Example SetMetaData_twice :
  let after := SetMetaData InternalCode (httpMetaData initialPackage) (anyInt 503) in
  fst after = Some {| existingMetaData := anyInt 500; code := InternalCode |}
  ∧ snd after !! "internal" = Some (anyInt 500).
Proof. split; vm_compute; reflexivity. Qed.

(** [SetHTTP] escalates the conflict to a panic. *)
Lemma SetHTTP_conflict (c : Code) (m : MetaData) (httpCode : Z) (old : any) :
  m !! Code_CodeStr c = Some old →
  SetHTTP c httpCode m =
  Panic (panicAnnotated "SetHTTP" {| existingMetaData := old; code := c |}).
Proof. intros H. unfold SetHTTP, SetMetaData. by rewrite H. Qed.

(** ** The registry *)

Lemma NewCode_fresh (s : CodeStr) (reg : Registry) :
  s ∉ reg → NewCode s reg = Ok (Build_Code s None, {[s]} ∪ reg).
Proof. intros H. unfold NewCode. by rewrite decide_False. Qed.

Lemma Child_fresh (parent : Code) (s : CodeStr) (reg : Registry) :
  s ∉ reg → Child parent s reg = Ok (Build_Code s (Some parent), {[s]} ∪ reg).
Proof. intros H. unfold Child. by rewrite decide_False. Qed.

(** A created code has its identifier registered, and nothing leaves the
    registry. *)
Lemma NewCode_registers (s : CodeStr) (reg reg' : Registry) (c : Code) :
  NewCode s reg = Ok (c, reg') → Code_CodeStr c = s ∧ s ∈ reg' ∧ reg ⊆ reg'.
Proof.
  unfold NewCode. case_decide; [done|]. intros [= <- <-].
  split; [done|]. set_solver.
Qed.

Lemma Child_registers (parent : Code) (s : CodeStr) (reg reg' : Registry) (c : Code) :
  Child parent s reg = Ok (c, reg') →
  Code_CodeStr c = s ∧ Parent c = Some parent ∧ s ∈ reg' ∧ reg ⊆ reg'.
Proof.
  unfold Child. case_decide; [done|]. intros [= <- <-].
  split; [done|]. split; [done|]. set_solver.
Qed.

(** Creating the same identifier twice, as a root or as a child. *)
Lemma NewCode_twice (s : CodeStr) (reg reg' : Registry) (c : Code) :
  NewCode s reg = Ok (c, reg') →
  panics (NewCode s reg') ∧ ∀ parent, panics (Child parent s reg').
Proof.
  intros (_ & Hin & _)%NewCode_registers.
  unfold NewCode, Child.
  split; [|intros parent]; rewrite decide_True by done; by eexists.
Qed.

Lemma create_registers (op : creation) (reg reg' : Registry) (c : Code) :
  create op reg = Ok (c, reg') →
  (Code_CodeStr c ∉ reg) ∧ reg' = {[Code_CodeStr c]} ∪ reg.
Proof.
  destruct op as [s|parent s]; simpl; unfold NewCode, Child;
    case_decide; try done; by intros [= <- <-].
Qed.

(** Whatever sequence of creations runs to its end, the codes it made have
    pairwise distinct identifiers, all of them registered. *)
Lemma createAll_unique (ops : list creation) (reg reg' : Registry) (codes : list Code) :
  createAll ops reg = Ok (codes, reg') →
  NoDup (Code_CodeStr <$> codes)
  ∧ (∀ c, c ∈ codes → (Code_CodeStr c ∉ reg) ∧ Code_CodeStr c ∈ reg')
  ∧ reg ⊆ reg'.
Proof.
  revert reg codes. induction ops as [|op ops IH]; intros reg codes; simpl.
  - intros [= <- <-]. split; [constructor|]. split; [|done].
    intros c Hc. by apply elem_of_nil in Hc.
  - destruct (create op reg) as [[c reg1]|] eqn:Hop; [|done].
    destruct (createAll ops reg1) as [[cs reg2]|] eqn:Hrest; [|done].
    intros [= <- <-].
    apply create_registers in Hop as [Hfresh ->].
    destruct (IH _ _ Hrest) as (Hnodup & Hall & Hsub).
    split; [|split].
    + rewrite fmap_cons. apply NoDup_cons. split; [|done].
      intros (c' & Heq & Hc')%list_elem_of_fmap.
      destruct (Hall c' Hc') as [Hnot _]. apply Hnot. rewrite <- Heq.
      apply elem_of_union_l. by apply elem_of_singleton.
    + intros c' [->|Hc']%elem_of_cons.
      * split; [done|]. apply Hsub, elem_of_union_l. by apply elem_of_singleton.
      * destruct (Hall c' Hc') as [Hnot Hin]. split; [|done].
        intros Hin'. by apply Hnot, elem_of_union_r.
    + intros x Hx. by apply Hsub, elem_of_union_r.
Qed.

(** The registry after a run: what it had before and the identifiers of
    the codes the run made, nothing else. *)
Lemma createAll_registered (ops : list creation) (reg reg' : Registry)
    (codes : list Code) :
  createAll ops reg = Ok (codes, reg') →
  ∀ s, s ∈ reg' ↔ s ∈ reg ∨ s ∈ Code_CodeStr <$> codes.
Proof.
  revert reg codes. induction ops as [|op ops IH]; intros reg codes; simpl.
  - intros [= <- <-] s. rewrite fmap_nil, elem_of_nil. tauto.
  - destruct (create op reg) as [[c reg1]|] eqn:Hop; [|done].
    destruct (createAll ops reg1) as [[cs reg2]|] eqn:Hrest; [|done].
    intros [= <- <-] s.
    apply create_registers in Hop as [_ ->].
    rewrite (IH _ _ Hrest s), fmap_cons, elem_of_cons, elem_of_union, elem_of_singleton.
    tauto.
Qed.

(** C5. Identifiers are unique across the process. Whatever creations
    ([NewCode], [Child]) have run on the registry: the codes they made have
    pairwise distinct identifiers; an identifier is registered exactly when
    it was registered before or one of these codes has it; for every
    registered identifier [NewCode] and [Child] (on any receiver) panic, so
    that no second code is made and a run that asks for it again stops
    there; an identifier that is not registered is still accepted. *)
Theorem registered_identifier_panics (ops : list creation) (reg reg' : Registry)
    (codes : list Code) :
  createAll ops reg = Ok (codes, reg') →
  NoDup (Code_CodeStr <$> codes)
  ∧ (∀ s, s ∈ reg' ↔ s ∈ reg ∨ s ∈ Code_CodeStr <$> codes)
  ∧ (∀ s, s ∈ reg' →
       NewCode s reg' = Panic (panicDuplicateCode s)
       ∧ (∀ parent, Child parent s reg' = Panic (panicDuplicateCode s))
       ∧ (∀ op more, creationId op = s →
            createAll (ops ++ op :: more) reg = Panic (panicDuplicateCode s)))
  ∧ (∀ s, s ∉ reg' →
       NewCode s reg' = Ok (Build_Code s None, {[s]} ∪ reg')
       ∧ ∀ parent, Child parent s reg'
                   = Ok (Build_Code s (Some parent), {[s]} ∪ reg')).
Proof.
  intros Hrun.
  split; [exact (proj1 (createAll_unique _ _ _ _ Hrun))|].
  split; [exact (createAll_registered _ _ _ _ Hrun)|].
  split.
  - intros s Hin.
    assert (NewCode s reg' = Panic (panicDuplicateCode s)) as Hnew
      by (unfold NewCode; by rewrite decide_True).
    assert (∀ parent, Child parent s reg' = Panic (panicDuplicateCode s)) as Hchild
      by (intros parent; unfold Child; by rewrite decide_True).
    split; [done|]. split; [done|].
    intros op more Hop. clear Hin. revert reg codes Hrun Hnew Hchild.
    induction ops as [|op0 ops IH]; intros reg codes; simpl.
    + intros [= <- <-] Hnew Hchild.
      destruct op as [codeRep|parent childStr]; simpl in *; subst s.
      * by rewrite Hnew.
      * by rewrite Hchild.
    + destruct (create op0 reg) as [[c reg1]|] eqn:Hop0; [|done].
      destruct (createAll ops reg1) as [[cs reg2]|] eqn:Hrest; [|done].
      intros [= <- <-] Hnew Hchild.
      by rewrite (IH reg1 cs Hrest Hnew Hchild).
  - intros s Hnot. split; [by apply NewCode_fresh|].
    intros parent. by apply Child_fresh.
Qed.

Lemma registered_identifier_panics_witness :
  ∃ codes reg',
    createAll [createRoot "internal";
               createChild InternalCode "internal.unimplemented"] ∅
      = Ok (codes, reg')
    ∧ NewCode "internal" reg' = Panic (panicDuplicateCode "internal")
    ∧ Child InternalCode "internal.unimplemented" reg'
      = Panic (panicDuplicateCode "internal.unimplemented").
Proof.
  assert (createAll [createRoot "internal";
                     createChild InternalCode "internal.unimplemented"] ∅
          = Ok ([InternalCode; UnimplementedCode],
                {["internal.unimplemented"]} ∪ ({["internal"]} ∪ ∅))) as Hrun
    by (vm_compute; reflexivity).
  destruct (registered_identifier_panics _ _ _ _ Hrun) as (_ & Hreg & Hpanic & _).
  eexists _, _. split; [exact Hrun|]. split.
  - apply Hpanic, Hreg. right. apply list_elem_of_here.
  - refine (proj1 (proj2 (Hpanic "internal.unimplemented" _)) InternalCode).
    apply Hreg. right. apply list_elem_of_further, list_elem_of_here.
Defined.

(** ** Aggregation *)

Lemma firstErrorCode_first (pre post : list error) (errcode : errorCode) :
  Forall (λ err, ¬ satisfiesErrorCode err) pre →
  firstErrorCode (pre ++ ofErrorCode errcode :: post) = Some errcode.
Proof.
  induction 1 as [|err pre Hno _ IH]; simpl; [done|].
  destruct err as [msg d|other]; [done|]. destruct Hno. by exists other.
Qed.

Lemma firstErrorCode_none (errs : list error) :
  Forall (λ err, ¬ satisfiesErrorCode err) errs → firstErrorCode errs = None.
Proof.
  induction 1 as [|err errs Hno _ IH]; simpl; [done|].
  destruct err as [msg d|other]; [done|]. destruct Hno. by exists other.
Qed.

(** C6. For every list of errors given to [Combine]: [Errors()] of the
    aggregate is the list itself, in order; its [Code()] is the code of the
    first error of the list that satisfies [ErrorCode]; and when no error of
    the list satisfies [ErrorCode], its [Code()] is [InternalCode]. *)
Theorem Combine_code (errs : list error) :
  MultiErrCode_Errors (Combine errs) = errs
  ∧ (∀ pre errcode post,
       errs = pre ++ ofErrorCode errcode :: post →
       Forall (λ err, ¬ satisfiesErrorCode err) pre →
       MultiErrCode_Code (Combine errs) = errorCode_Code errcode)
  ∧ (Forall (λ err, ¬ satisfiesErrorCode err) errs →
       MultiErrCode_Code (Combine errs) = InternalCode).
Proof.
  split; [reflexivity|]. unfold MultiErrCode_Code, Combine. simpl. split.
  - intros pre errcode post -> Hpre. by rewrite firstErrorCode_first.
  - intros Hnone. by rewrite firstErrorCode_none.
Qed.

Lemma Combine_code_witness :
  MultiErrCode_Code
    (Combine [userError "disk full" None;
              ofErrorCode (userErrorCode "no such row" NotFoundCode None)])
  = NotFoundCode
  ∧ MultiErrCode_Code (Combine [userError "disk full" None]) = InternalCode.
Proof.
  split.
  - refine (proj1 (proj2 (Combine_code _)) [userError "disk full" None]
              (userErrorCode "no such row" NotFoundCode None) [] _ _).
    + reflexivity.
    + apply Forall_cons. split; [|apply Forall_nil; exact I].
      intros [errcode Herr]. discriminate Herr.
  - apply (proj2 (proj2 (Combine_code [userError "disk full" None]))).
    apply Forall_cons. split; [|apply Forall_nil; exact I].
    intros [errcode Herr]. discriminate Herr.
Defined.

(** [Combine(errA, errB)] where only [errB] has a code. *)
Example Combine_second_has_code :
  let errA := userError "disk full" None in
  let errB := userErrorCode "no such row" NotFoundCode None in
  MultiErrCode_Code (Combine [errA; ofErrorCode errB]) = NotFoundCode
  ∧ MultiErrCode_Errors (Combine [errA; ofErrorCode errB]) = [errA; ofErrorCode errB].
Proof. split; reflexivity. Qed.

(** * Further properties of the metadata stores *)

Lemma MetaDataFromAncestors_own (metaData : MetaData) (c : Code) (v : any) :
  metaData !! Code_CodeStr c = Some v → MetaDataFromAncestors c metaData = v.
Proof. intros H. destruct c as [s [p|]]; cbn [MetaDataFromAncestors]; by rewrite H. Qed.

Lemma SetMetaData_store (c : Code) (m : MetaData) (v : any) :
  (SetMetaData c m v).2 =
  match m !! Code_CodeStr c with
  | Some _ => m
  | None => <[Code_CodeStr c := v]> m
  end.
Proof. unfold SetMetaData. by destruct (m !! Code_CodeStr c). Qed.

Section SetterLaws.

(** The two setters differ in the annotation of their panic and in the
    dynamic type of what they store. *)
Variable set : Code → Z → MetaData → result (Code * MetaData).
Variable annotation : string.
Variable inj : Z → any.
Hypothesis set_unfold : ∀ c n m,
  set c n m =
  match m !! Code_CodeStr c with
  | Some old =>
      Panic (panicAnnotated annotation {| existingMetaData := old; code := c |})
  | None => Ok (c, <[Code_CodeStr c := inj n]> m)
  end.

Lemma setEach_returns_iff (calls : list (Code * Z)) (m : MetaData) :
  returns (setEach set calls m) ↔
  NoDup (callIds calls) ∧ Forall (λ k, m !! k = None) (callIds calls).
Proof.
  revert m. induction calls as [|[c n] rest IH]; intros m; cbn [setEach].
  - split; [intros _; split; constructor | intros _; by eexists].
  - change (callIds ((c, n) :: rest)) with (Code_CodeStr c :: callIds rest).
    rewrite set_unfold. destruct (m !! Code_CodeStr c) eqn:E.
    + split; [by intros [m' ?]|]. intros [_ [Hc _]%Forall_cons]. congruence.
    + rewrite IH, NoDup_cons, Forall_cons, !Forall_forall. split.
      * intros [Hnd Hall]. split; [split; [|done]|split; [done|]].
        -- intros Hin. specialize (Hall _ Hin). by rewrite lookup_insert_eq in Hall.
        -- intros k Hk. by destruct (lookup_insert_None m (Code_CodeStr c) k (inj n))
             as [[? _] _]; [apply Hall|].
      * intros [[Hnot Hnd] [_ Hall]]. split; [done|]. intros k Hk.
        apply lookup_insert_None. split; [by apply Hall|].
        intros Heq. apply Hnot. by rewrite Heq.
Qed.

Lemma setEach_lookup (calls : list (Code * Z)) (m m' : MetaData) :
  setEach set calls m = Ok m' →
  m ⊆ m'
  ∧ (∀ c n, (c, n) ∈ calls → m' !! Code_CodeStr c = Some (inj n))
  ∧ (∀ k v, m' !! k = Some v →
       m !! k = Some v ∨ ∃ c n, (c, n) ∈ calls ∧ k = Code_CodeStr c ∧ v = inj n).
Proof.
  revert m. induction calls as [|[c n] rest IH]; intros m; cbn [setEach].
  - intros [= <-]. split; [done|]. split; [|by left].
    intros c n Hin. by apply elem_of_nil in Hin.
  - rewrite set_unfold. destruct (m !! Code_CodeStr c) eqn:E; [done|].
    intros (Hsub & Hcalls & Hfrom)%IH.
    assert (m ⊆ <[Code_CodeStr c:=inj n]> m) as Hm by by apply insert_subseteq.
    split; [by etrans|]. split.
    + intros c' n' [[= -> ->]|Hin]%elem_of_cons; [|by apply Hcalls].
      eapply lookup_weaken; [|exact Hsub]. apply lookup_insert_eq.
    + intros k v [Hk|(c' & n' & Hin & -> & ->)]%Hfrom.
      * apply lookup_insert_Some in Hk as [[<- <-]|[_ Hk]]; [|by left].
        right. exists c, n. split; [apply list_elem_of_here|done].
      * right. exists c', n'. split; [by apply list_elem_of_further|done].
Qed.

End SetterLaws.

Lemma SetHTTP_unfold (c : Code) (n : Z) (m : MetaData) :
  SetHTTP c n m =
  match m !! Code_CodeStr c with
  | Some old =>
      Panic (panicAnnotated "SetHTTP" {| existingMetaData := old; code := c |})
  | None => Ok (c, <[Code_CodeStr c := anyInt n]> m)
  end.
Proof. unfold SetHTTP, SetMetaData. by destruct (m !! Code_CodeStr c). Qed.

Lemma SetCode_unfold (c : Code) (g : Z) (m : MetaData) :
  grpc.SetCode c g m =
  match m !! Code_CodeStr c with
  | Some old =>
      Panic (panicAnnotated "SetGRPC" {| existingMetaData := old; code := c |})
  | None => Ok (c, <[Code_CodeStr c := anyGRPC g]> m)
  end.
Proof. unfold grpc.SetCode, SetMetaData. by destruct (m !! Code_CodeStr c). Qed.

(** X1. When [SetHTTP] returns, it returns its receiver, the code's
    [HTTPCode()] is from then on the value that was set, whatever the
    ancestors of the code have, and every later [SetHTTP] on the code
    panics with a conflict that carries that value. *)
Theorem SetHTTP_then_HTTPCode (c c' : Code) (n : Z) (m m' : MetaData) :
  SetHTTP c n m = Ok (c', m') →
  c' = c
  ∧ HTTPCode c m' = Ok n
  ∧ ∀ n', SetHTTP c n' m' =
          Panic (panicAnnotated "SetHTTP"
                   {| existingMetaData := anyInt n; code := c |}).
Proof.
  rewrite SetHTTP_unfold. destruct (m !! Code_CodeStr c) eqn:E; [done|].
  intros [= <- <-]. split; [done|].
  assert (<[Code_CodeStr c:=anyInt n]> m !! Code_CodeStr c = Some (anyInt n)) as Hown
    by apply lookup_insert_eq.
  split.
  - unfold HTTPCode. by rewrite (MetaDataFromAncestors_own _ _ _ Hown).
  - intros n'. rewrite SetHTTP_unfold. by rewrite Hown.
Qed.

Lemma SetHTTP_then_HTTPCode_witness :
  ∃ m', SetHTTP OutOfRangeCode 416 (httpMetaData initialPackage) = Ok (OutOfRangeCode, m')
        ∧ HTTPCode OutOfRangeCode m' = Ok 416.
Proof.
  destruct (SetHTTP OutOfRangeCode 416 (httpMetaData initialPackage))
    as [[c' m']|p] eqn:Hset.
  - destruct (SetHTTP_then_HTTPCode _ _ _ _ _ Hset) as (-> & Hread & _).
    exists m'. split; [reflexivity | exact Hread].
  - exfalso. revert Hset. rewrite SetHTTP_unfold.
    replace (httpMetaData initialPackage !! Code_CodeStr OutOfRangeCode)
      with (@None any) by (vm_compute; reflexivity).
    discriminate.
Defined.

(** X2. A call of [SetMetaData] for a code whose identifier does not occur
    on the chain of [d] leaves what [MetaDataFromAncestors] finds for [d]
    unchanged, whether the call stores its item or reports a conflict. *)
Theorem SetMetaData_frame (c d : Code) (m : MetaData) (v : any) :
  Code_CodeStr c ∉ chainIds d →
  MetaDataFromAncestors d (SetMetaData c m v).2 = MetaDataFromAncestors d m.
Proof.
  rewrite SetMetaData_store. destruct (m !! Code_CodeStr c) eqn:E; [done|].
  unfold chainIds.
  induction d as [s|s parent IH] using Code_parent_ind;
    cbn [ancestry fmap list_fmap MetaDataFromAncestors];
    intros Hnot; apply not_elem_of_cons in Hnot as [Hne Hrest];
    rewrite lookup_insert_ne by done; [done|].
  destruct (m !! Code_CodeStr (Build_Code s (Some parent))); [done|]. by apply IH.
Qed.

Lemma SetMetaData_frame_witness :
  MetaDataFromAncestors UnimplementedCode
    (SetMetaData StateCode (httpMetaData initialPackage) (anyInt 422)).2
  = MetaDataFromAncestors UnimplementedCode (httpMetaData initialPackage).
Proof.
  apply SetMetaData_frame. unfold chainIds. simpl.
  intros Hin. apply elem_of_cons in Hin as [Heq|Hin]; [discriminate Heq|].
  apply elem_of_cons in Hin as [Heq|Hin]; [discriminate Heq|].
  by apply elem_of_nil in Hin.
Defined.

(** X3. Inheritance is resolved at lookup time: when [SetMetaData] stores
    an item for a code [c], every code that has [c] on its chain and no
    value of its own or of a nearer ancestor finds that item from then on. *)
Theorem SetMetaData_reaches_descendants (c d : Code) (pre post : list Code)
    (m : MetaData) (v : any) :
  ancestry d = pre ++ c :: post →
  Forall (λ a, m !! Code_CodeStr a = None ∧ Code_CodeStr a ≠ Code_CodeStr c) pre →
  m !! Code_CodeStr c = None →
  (SetMetaData c m v).1 = None
  ∧ MetaDataFromAncestors d (SetMetaData c m v).2 = v.
Proof.
  intros Hchain Hpre Hc. unfold SetMetaData. rewrite Hc. split; [done|]. simpl.
  apply (MetaDataFromAncestors_nearest _ d pre post c v Hchain).
  - eapply Forall_impl; [exact Hpre|]. intros a [Ha Hne]. unfold unset.
    by rewrite lookup_insert_ne.
  - apply lookup_insert_eq.
Qed.

Lemma SetMetaData_reaches_descendants_witness :
  MetaDataFromAncestors ForbiddenCode (SetMetaData AuthCode ∅ (anyInt 401)).2
  = anyInt 401.
Proof.
  refine (proj2 (SetMetaData_reaches_descendants AuthCode ForbiddenCode
                   [ForbiddenCode] [] ∅ (anyInt 401) eq_refl _ _)).
  - apply Forall_cons. split; [|apply Forall_nil; exact I].
    split; [apply lookup_empty | discriminate].
  - apply lookup_empty.
Defined.

(** X4. Over any sequence of [SetMetaData] calls on a store, the first
    value registered for an identifier is the one the store keeps: an entry
    the store already had is never replaced, and an identifier it did not
    have ends with the item of the first call made for it. *)
Theorem SetMetaData_all_first_wins (calls : list (Code * any)) (m : MetaData)
    (k : CodeStr) :
  SetMetaData_all calls m !! k =
  match m !! k with
  | Some v => Some v
  | None => firstFor k calls
  end.
Proof.
  revert m. induction calls as [|[c item] rest IH]; intros m;
    cbn [SetMetaData_all firstFor].
  - by destruct (m !! k).
  - rewrite IH, SetMetaData_store.
    destruct (m !! Code_CodeStr c) eqn:Ec.
    + case_decide as Hk; [|done]. subst k. by rewrite Ec.
    + case_decide as Hk.
      * subst k. by rewrite lookup_insert_eq, Ec.
      * by rewrite lookup_insert_ne.
Qed.

(** X5. A sequence of [SetHTTP] calls runs to its end exactly when the
    identifiers it sets are pairwise distinct and none of them has a value
    in the store it starts from; otherwise one of the calls panics. *)
Theorem SetHTTP_sequence_returns_iff (calls : list (Code * Z)) (m : MetaData) :
  returns (setEach SetHTTP calls m) ↔
  NoDup (callIds calls) ∧ Forall (λ k, m !! k = None) (callIds calls).
Proof. apply (setEach_returns_iff SetHTTP "SetHTTP" anyInt SetHTTP_unfold). Qed.

(** X6. On a store that holds HTTP values only, after a sequence of
    [SetHTTP] calls that ran to its end, each code of the sequence has the
    [HTTPCode()] it was given, and [HTTPCode()] returns for every code: its
    type assertion cannot fail. *)
Theorem SetHTTP_sequence_reads (calls : list (Code * Z)) (m m' : MetaData) :
  holdsInts m →
  setEach SetHTTP calls m = Ok m' →
  (∀ c n, (c, n) ∈ calls → HTTPCode c m' = Ok n)
  ∧ (∀ d, returns (HTTPCode d m')).
Proof.
  intros Hm Hrun.
  destruct (setEach_lookup SetHTTP "SetHTTP" anyInt SetHTTP_unfold calls m m' Hrun)
    as (_ & Hcalls & Hfrom).
  split.
  - intros c n Hin. unfold HTTPCode.
    by rewrite (MetaDataFromAncestors_own _ _ _ (Hcalls c n Hin)).
  - intros d. apply HTTPCode_returns. intros k v [Hk|(c & n & _ & _ & ->)]%Hfrom.
    + by apply (Hm k).
    + by exists n.
Qed.

Lemma SetHTTP_sequence_reads_witness :
  ∃ m', setEach SetHTTP [(AuthCode, 401); (StateCode, 400)] ∅ = Ok m'
        ∧ HTTPCode AuthCode m' = Ok 401.
Proof.
  assert (setEach SetHTTP [(AuthCode, 401); (StateCode, 400)] ∅
          = Ok (<["state":=anyInt 400]> (<["auth":=anyInt 401]> ∅))) as Hrun
    by (vm_compute; reflexivity).
  eexists. split; [exact Hrun|].
  apply (proj1 (SetHTTP_sequence_reads _ ∅ _ holdsInts_empty Hrun)).
  apply list_elem_of_here.
Defined.

(** * Further properties of the GRPC registry *)

Lemma grpc_init_setEach (m : MetaData) :
  grpc.init m = setEach grpc.SetCode grpcTable m.
Proof.
  unfold grpc.init, grpcTable. cbn [setEach].
  repeat match goal with
         | |- context [grpc.SetCode ?c ?g ?st] =>
             destruct (grpc.SetCode c g st) as [[? ?]|?]; cbn [rbind snd];
             try reflexivity
         end.
Qed.

Lemma grpc_init_empty : grpc.init ∅ = Ok grpcInitial.
Proof. vm_cast_no_check (eq_refl (Ok grpcInitial)). Qed.

(** X7. When [grpc.SetCode] returns, it returns the code it was given, the
    code's [grpc.GetCode] is from then on the GRPC code that was set,
    whatever the ancestors of the code map to, and every later [SetCode] on
    the code panics with a conflict that carries that GRPC code. *)
Theorem SetCode_then_GetCode (c c' : Code) (g : Z) (m m' : MetaData) :
  grpc.SetCode c g m = Ok (c', m') →
  c' = c
  ∧ grpc.GetCode c m' = Ok g
  ∧ ∀ g', grpc.SetCode c g' m' =
          Panic (panicAnnotated "SetGRPC"
                   {| existingMetaData := anyGRPC g; code := c |}).
Proof.
  rewrite SetCode_unfold. destruct (m !! Code_CodeStr c) eqn:E; [done|].
  intros [= <- <-]. split; [done|].
  assert (<[Code_CodeStr c:=anyGRPC g]> m !! Code_CodeStr c = Some (anyGRPC g)) as Hown
    by apply lookup_insert_eq.
  split.
  - unfold grpc.GetCode. by rewrite (MetaDataFromAncestors_own _ _ _ Hown).
  - intros g'. rewrite SetCode_unfold. by rewrite Hown.
Qed.

(** The child ["input.grpc"] of [InvalidInputCode] set to [Aborted], once
    [init] has mapped its parent to [InvalidArgument]. *)
Lemma SetCode_then_GetCode_witness :
  ∃ m, grpc.SetCode (Build_Code "input.grpc" (Some InvalidInputCode)) codes.Aborted
         {[ "input" := anyGRPC codes.InvalidArgument ]}
       = Ok (Build_Code "input.grpc" (Some InvalidInputCode), m)
       ∧ grpc.GetCode (Build_Code "input.grpc" (Some InvalidInputCode)) m
         = Ok codes.Aborted.
Proof.
  assert (grpc.SetCode (Build_Code "input.grpc" (Some InvalidInputCode)) codes.Aborted
            {[ "input" := anyGRPC codes.InvalidArgument ]}
          = Ok (Build_Code "input.grpc" (Some InvalidInputCode),
                <["input.grpc":=anyGRPC codes.Aborted]>
                  {[ "input" := anyGRPC codes.InvalidArgument ]})) as Hset
    by (vm_compute; reflexivity).
  eexists. split; [exact Hset|].
  exact (proj1 (proj2 (SetCode_then_GetCode _ _ _ _ _ Hset))).
Defined.

(** X8. [grpc.GetCode] of a code is the GRPC code registered for the first
    code of its chain that has one, and [Unknown] (2) when no code of the
    chain has one; in particular a code with a parent and no GRPC code of
    its own has the GRPC code of its parent. *)
Theorem GetCode_inherited :
  (∀ (m : MetaData) c pre A post g,
     ancestry c = pre ++ A :: post →
     Forall (unset m) pre →
     m !! Code_CodeStr A = Some (anyGRPC g) →
     grpc.GetCode c m = Ok g)
  ∧ (∀ (m : MetaData) c,
       Forall (unset m) (ancestry c) → grpc.GetCode c m = Ok 2)
  ∧ (∀ (m : MetaData) s parent,
       m !! s = None →
       grpc.GetCode (Build_Code s (Some parent)) m = grpc.GetCode parent m).
Proof.
  repeat split.
  - intros m c pre A post g Hchain Hpre HA. unfold grpc.GetCode.
    by rewrite (MetaDataFromAncestors_nearest m c pre post A (anyGRPC g)).
  - intros m c Hnone. unfold grpc.GetCode. by rewrite MetaDataFromAncestors_absent.
  - intros m s parent Hnone. unfold grpc.GetCode.
    by rewrite MetaDataFromAncestors_inherit.
Qed.

(** X9. [grpc.init] runs to its end exactly when the store it starts from
    has no value for any of the nine identifiers it sets; on any other
    store one of its [SetCode] calls panics. *)
Theorem grpc_init_returns_iff (m : MetaData) :
  returns (grpc.init m) ↔ Forall (λ k, m !! k = None) (callIds grpcTable).
Proof.
  rewrite grpc_init_setEach,
    (setEach_returns_iff grpc.SetCode "SetGRPC" anyGRPC SetCode_unfold).
  split; [by intros [_ ?]|]. intros Hall. split; [|done].
  vm_compute. repeat (apply NoDup_cons; split; [|]);
    try apply NoDup_nil_2;
    rewrite ?elem_of_cons, elem_of_nil; intros H;
    repeat (destruct H as [H|H]; [discriminate H|]); exact H.
Qed.

(** X10. Once [grpc.init] has run on the empty store, the GRPC status of
    what each constructor makes of an error that carries no code has the
    GRPC code of the constructor's default and the error's own message. *)
Theorem constructors_GRPC_status (g : MetaData) (msg : string) (data : option any) :
  grpc.init ∅ = Ok g →
  rbind (NewInvalidInputErr (Some (userError msg data))) (λ r, grpc.Status r g)
    = Ok (status.New codes.InvalidArgument msg)
  ∧ rbind (NewNotFoundErr (Some (userError msg data))) (λ r, grpc.Status r g)
    = Ok (status.New codes.NotFound msg)
  ∧ rbind (NewNotAuthenticatedErr (Some (userError msg data))) (λ r, grpc.Status r g)
    = Ok (status.New codes.Unauthenticated msg)
  ∧ rbind (NewForbiddenErr (Some (userError msg data))) (λ r, grpc.Status r g)
    = Ok (status.New codes.PermissionDenied msg)
  ∧ rbind (NewInternalErr (Some (userError msg data))) (λ r, grpc.Status r g)
    = Ok (status.New codes.Internal msg)
  ∧ rbind (NewUnimplementedErr (Some (userError msg data))) (λ r, grpc.Status r g)
    = Ok (status.New codes.Unimplemented msg).
Proof.
  rewrite grpc_init_empty. intros [= <-].
  repeat split; vm_compute; reflexivity.
Qed.

Lemma constructors_GRPC_status_witness :
  ∃ g, grpc.init ∅ = Ok g
       ∧ rbind (NewNotFoundErr (Some (userError "no such row" None)))
               (λ r, grpc.Status r g)
         = Ok (status.New codes.NotFound "no such row").
Proof.
  exists grpcInitial. split; [exact grpc_init_empty|].
  exact (proj1 (proj2 (constructors_GRPC_status grpcInitial "no such row" None
                         grpc_init_empty))).
Defined.

(** * Further properties of the constructors *)

(** X11. Wrapping again never reclassifies: when one of the constructors
    built on [NewCodedError] is applied to the result of another, whatever
    the two default codes are, the outer error has the code of the inner
    one, and its message is still the message of the original error. *)
Theorem rewrap_keeps_code (err : error) (D1 D2 : Code) (k1 k2 : codedKind)
    (r1 : errorCode) :
  embedCoded k1 (NewCodedError (Some err) D1) = Ok r1 →
  ∃ r2, embedCoded k2 (NewCodedError (Some (ofErrorCode r1)) D2) = Ok r2
    ∧ errorCode_Code r2 = errorCode_Code r1
    ∧ errorCode_Error r2 = error_Error err
    ∧ ClientData r2 = ClientData r1.
Proof.
  simpl. intros [= <-]. eexists. split; [reflexivity|]. by repeat split.
Qed.

Lemma rewrap_keeps_code_witness :
  ∃ r1 r2,
    NewNotFoundErr (Some (userError "no such row" None)) = Ok r1
    ∧ NewInvalidInputErr (Some (ofErrorCode r1)) = Ok r2
    ∧ errorCode_Code r2 = NotFoundCode
    ∧ errorCode_Error r2 = Ok "no such row".
Proof.
  destruct (rewrap_keeps_code (userError "no such row" None)
              NotFoundCode InvalidInputCode asNotFoundErr asInvalidInputErr
              (ofCodedError asNotFoundErr
                 (Build_CodedError NotFoundCode (Some (userError "no such row" None))))
              eq_refl) as (r2 & Hr2 & Hcode & Hmsg & _).
  eexists _, r2. split; [reflexivity|]. split; [exact Hr2|].
  split; [exact Hcode | exact Hmsg].
Defined.

(** X12. On the HTTP store the package starts with, what each constructor
    makes of an error that carries no code has the HTTP status of the
    constructor's default code: 400 for invalid input, 404 for not found,
    401 for not authenticated, 403 for forbidden, 500 for internal and 501
    for unimplemented; for an error that carries a code, the constructors
    built on [NewCodedError] give the HTTP status of that code instead. *)
Theorem constructors_HTTP_status :
  (∀ msg data,
     let err := Some (userError msg data) in
     let http := λ r : result errorCode,
       rbind r (λ e, HTTPCode (errorCode_Code e) (httpMetaData initialPackage)) in
     http (NewInvalidInputErr err) = Ok 400
     ∧ http (NewNotFoundErr err) = Ok 404
     ∧ http (NewNotAuthenticatedErr err) = Ok 401
     ∧ http (NewForbiddenErr err) = Ok 403
     ∧ http (NewInternalErr err) = Ok 500
     ∧ http (NewUnimplementedErr err) = Ok 501)
  ∧ (∀ errcode (m : MetaData),
       let err := Some (ofErrorCode errcode) in
       let http := λ r : result errorCode,
         rbind r (λ e, HTTPCode (errorCode_Code e) m) in
       http (NewInvalidInputErr err) = HTTPCode (errorCode_Code errcode) m
       ∧ http (NewNotFoundErr err) = HTTPCode (errorCode_Code errcode) m
       ∧ http (NewNotAuthenticatedErr err) = HTTPCode (errorCode_Code errcode) m
       ∧ http (NewForbiddenErr err) = HTTPCode (errorCode_Code errcode) m).
Proof.
  split.
  - intros msg data. repeat split; vm_compute; reflexivity.
  - intros errcode m. repeat split.
Qed.

(** X13. Promotion into the internal family is stable: an error returned by
    [NewInternalErr] or [NewUnimplementedErr] keeps its code when either of
    the two is applied to it again. *)
Theorem internal_promotion_stable (err : option error) (r : errorCode) :
  NewInternalErr err = Ok r ∨ NewUnimplementedErr err = Ok r →
  ∃ r1 r2,
    NewInternalErr (Some (ofErrorCode r)) = Ok r1
    ∧ NewUnimplementedErr (Some (ofErrorCode r)) = Ok r2
    ∧ errorCode_Code r1 = errorCode_Code r
    ∧ errorCode_Code r2 = errorCode_Code r.
Proof.
  intros Hr. eexists _, _.
  split; [apply NewInternalErr_Some|]. split; [apply NewUnimplementedErr_Some|].
  assert (IsAncestor (errorCode_Code r) InternalCode = true) as Hfam.
  { destruct err as [e|]; [|by destruct Hr].
    rewrite NewInternalErr_Some, NewUnimplementedErr_Some in Hr.
    destruct Hr as [[= <-]|[= <-]];
      cbn [errorCode_Code NewStackCode CodedError_Code GetCode];
      by apply promotedCode_internal. }
  cbn [errorCode_Code NewStackCode CodedError_Code GetCode promotedCode].
  by rewrite Hfam.
Qed.

Lemma internal_promotion_stable_witness :
  ∃ r r1,
    NewUnimplementedErr (Some (userError "todo" None)) = Ok r
    ∧ NewInternalErr (Some (ofErrorCode r)) = Ok r1
    ∧ errorCode_Code r1 = errorCode_Code r.
Proof.
  destruct (NewUnimplementedErr (Some (userError "todo" None))) as [r|p] eqn:Hr.
  - destruct (internal_promotion_stable (Some (userError "todo" None)) r (or_intror Hr))
      as (r1 & _ & Hr1 & _ & Hcode & _).
    exists r, r1. split; [reflexivity|]. split; [exact Hr1 | exact Hcode].
  - exfalso. revert Hr. rewrite NewUnimplementedErr_Some. discriminate.
Defined.

(** X14. For an error that carries no code and a default code outside the
    internal family, wrapping with [NewCodedError] and with
    [NewInternalErr] gives the two different outcomes of the two orders:
    [NewInternalErr] applied last overrides the outside code with
    [InternalCode], and [NewCodedError] applied last keeps the internal
    code; either way the result is classified as internal. *)
Theorem internal_wins_both_orders (msg : string) (data : option any) (D : Code)
    (k : codedKind) :
  IsAncestor D InternalCode = false →
  let err := userError msg data in
  (∃ inner outer,
     embedCoded k (NewCodedError (Some err) D) = Ok inner
     ∧ errorCode_Code inner = D
     ∧ NewInternalErr (Some (ofErrorCode inner)) = Ok outer
     ∧ errorCode_Code outer = InternalCode)
  ∧ (∃ inner outer,
       NewInternalErr (Some err) = Ok inner
       ∧ embedCoded k (NewCodedError (Some (ofErrorCode inner)) D) = Ok outer
       ∧ errorCode_Code outer = InternalCode).
Proof.
  intros Hout err. split.
  - eexists _, _. split; [reflexivity|]. split; [reflexivity|].
    split; [apply NewInternalErr_Some|].
    cbn -[IsAncestor InternalCode]. by rewrite Hout.
  - eexists _, _. split; [apply NewInternalErr_Some|]. split; reflexivity.
Qed.

Lemma internal_wins_both_orders_witness :
  ∃ inner outer,
    NewNotFoundErr (Some (userError "no such row" None)) = Ok inner
    ∧ NewInternalErr (Some (ofErrorCode inner)) = Ok outer
    ∧ errorCode_Code outer = InternalCode.
Proof.
  destruct (proj1 (internal_wins_both_orders "no such row" None NotFoundCode
                     asNotFoundErr eq_refl))
    as (inner & outer & Hinner & _ & Houter & Hcode).
  exists inner, outer. split; [exact Hinner|]. split; [exact Houter | exact Hcode].
Defined.
